(** * Fixed-point compound interest: the arithmetic of [x.py]

    The program is three pure functions over Python's unbounded integers:
    [apy_to_rate_per_second], [compute_multiplier] and [calculate_interest].
    Python's [int] is modelled by [Z].  Every [//] of the source has a
    positive constant divisor, where Python's floor division and [Z.div]
    agree (both round towards minus infinity), so [//] is written [/] in
    scope [Z]. *)

From Stdlib Require Import ZArith QArith Qround Qpower Lia Lqa Bool.

Local Open Scope Z_scope.

(** ** The source, function by function *)

Module Interest.

(** The constants are local to each function in the source; the values are
    the same everywhere they are written. *)
Definition WAD : Z := 1000000000000000000.
Definition BASE : Z := 1000000000.
Definition SECONDS_PER_YEAR : Z := 31536000.

(** x.py, lines 1-10. *)
Definition apy_to_rate_per_second (apy : Z) : Z :=
  let numerator := apy * WAD in
  let denominator := 1000 * SECONDS_PER_YEAR in
  numerator / denominator.

(** x.py, lines 13-35.  [res] starts as [BASE] and is overwritten only when
    [dt != 0]. *)
Definition compute_multiplier (rate_per_second dt : Z) : Z :=
  let diff := WAD / BASE in
  let res := BASE in
  if negb (dt =? 0) then
    let exp_minus_one := dt - 1 in
    let exp_minus_two := if dt >? 2 then dt - 2 else 0 in
    let dt_u128 := dt in
    let rate := rate_per_second in
    let base_power_two := (rate * rate) / WAD in
    let base_power_three := (base_power_two * rate) / WAD in
    let temp := dt_u128 * exp_minus_one in
    let second_term := temp * base_power_two / 2 in
    let third_term := temp * exp_minus_two * base_power_three / 6 in
    let offset := (dt_u128 * rate + second_term + third_term) / diff in
    BASE + offset
  else res.

(** x.py, lines 38-57. *)
Definition calculate_interest
  (principal start_epoch current_epoch epoch_duration interest_rate : Z) : Z :=
  let rate_per_second := apy_to_rate_per_second interest_rate in
  let interest := principal in
  if current_epoch >? start_epoch then
    let start_time := start_epoch * epoch_duration in
    let current_time := current_epoch * epoch_duration in
    let dt := current_time - start_time in
    let multiplier := compute_multiplier rate_per_second dt in
    (principal * multiplier) / 1000000000
  else interest.

End Interest.

Import Interest.

(** The clamp of line 21, [dt - 2 if dt > 2 else 0], on its own. *)
Definition clamp (dt : Z) : Z := if dt >? 2 then dt - 2 else 0.

(** The value bound to the local [offset] of [compute_multiplier] (line 32)
    when [dt != 0], with the locals it depends on inlined. *)
Definition offset_of (r dt : Z) : Z :=
  (dt * r
   + dt * (dt - 1) * (r * r / WAD) / 2
   + dt * (dt - 1) * (if dt >? 2 then dt - 2 else 0)
     * (r * r / WAD * r / WAD) / 6) / (WAD / BASE).

(** ** A variant with the fractions combined before dividing

    The second and third terms divide once, by [2 * WAD] and by
    [6 * WAD * WAD], instead of first rescaling the powers of the rate;
    everything else is [compute_multiplier].  It serves only to show that
    the position of the divisions is observable. *)

Definition compute_multiplier_regrouped (rate_per_second dt : Z) : Z :=
  let diff := WAD / BASE in
  if negb (dt =? 0) then
    let exp_minus_one := dt - 1 in
    let exp_minus_two := if dt >? 2 then dt - 2 else 0 in
    let rate := rate_per_second in
    let temp := dt * exp_minus_one in
    let second_term := temp * (rate * rate) / (2 * WAD) in
    let third_term :=
      temp * exp_minus_two * (rate * rate * rate) / (6 * WAD * WAD) in
    BASE + (dt * rate + second_term + third_term) / diff
  else BASE.

(** ** The same computation over the rationals

    [compute_multiplier] again, line for line, on [Q] and with the division
    left as a parameter: at [floor_div] it is the program (lemma
    [floor_model_refines] below), at [Qdiv] it is the program with every floor
    division replaced by exact division. *)

Module Rational.

Local Open Scope Q_scope.

Definition WADq : Q := inject_Z WAD.
Definition BASEq : Q := inject_Z BASE.

Definition floor_div (a b : Q) : Q := inject_Z (Qfloor (a / b)).

Section WithDivision.

Variable div : Q -> Q -> Q.

Definition offset_with (rate_per_second dt : Q) : Q :=
  let diff := div WADq BASEq in
  let exp_minus_one := dt - 1 in
  let exp_minus_two := if negb (Qle_bool dt 2) then dt - 2 else 0 in
  let rate := rate_per_second in
  let base_power_two := div (rate * rate) WADq in
  let base_power_three := div (base_power_two * rate) WADq in
  let temp := dt * exp_minus_one in
  let second_term := div (temp * base_power_two) 2 in
  let third_term := div (temp * exp_minus_two * base_power_three) 6 in
  div (dt * rate + second_term + third_term) diff.

Definition compute_multiplier_with (rate_per_second dt : Q) : Q :=
  if negb (Qeq_bool dt 0) then BASEq + offset_with rate_per_second dt
  else BASEq.

End WithDivision.

(** The offset with exact divisions, on integer arguments. *)
Definition offset_exact (r dt : Z) : Q :=
  offset_with Qdiv (inject_Z r) (inject_Z dt).

(** The spec's reading: [BASE * (x + x^2/2 + x^3/6)] with
    [x = rate_per_second * dt / WAD], the Taylor polynomial of [e^x - 1]. *)
Definition taylor3 (r dt : Z) : Q :=
  let x := inject_Z r * inject_Z dt / WADq in
  BASEq * (x + x * x / 2 + x * x * x / 6).

(** The binomial reading: [BASE * (C(dt,1) y + C(dt,2) y^2 + C(dt,3) y^3)]
    with [y = rate_per_second / WAD], the terms of degree one to three of
    [(1 + y)^dt]. *)
Definition binomial3 (r dt : Z) : Q :=
  let y := inject_Z r / WADq in
  let n := inject_Z dt in
  BASEq * (n * y
           + n * (n - 1) / 2 * (y * y)
           + n * (n - 1) * (n - 2) / 6 * (y * y * y)).

(** The Taylor polynomial with its second and third terms damped by
    [(1 - 1/dt)] and [(1 - 1/dt) * (1 - 2/dt)]. *)
Definition taylor3_damped (r dt : Z) : Q :=
  let n := inject_Z dt in
  let x := inject_Z r * n / WADq in
  BASEq * (x
           + (1 - 1 / n) * (x * x / 2)
           + (1 - 1 / n) * (1 - 2 / n) * (x * x * x / 6)).

(** Exact per-second compounding at [BASE] scale:
    [BASE * (1 + rate_per_second / WAD)^dt]. *)
Definition compounded (r dt : Z) : Q :=
  BASEq * (1 + inject_Z r / WADq) ^ dt.

End Rational.

(** ** Sanity runs on small inputs *)

Example multiplier_at_zero : compute_multiplier 5 0 = BASE.
Proof. reflexivity. Qed.

Example multiplier_one_second :
  compute_multiplier 1268391679 1 = 1000000001.
Proof. reflexivity. Qed.

Example rate_of_four_percent : apy_to_rate_per_second 40 = 1268391679.
Proof. reflexivity. Qed.

Example interest_without_elapsed_epochs :
  calculate_interest 1000 7 7 600 40 = 1000.
Proof. reflexivity. Qed.

Example interest_one_epoch :
  calculate_interest 1000000000000000000000 0 1 600 40
  = 1000000761000000000000.
Proof. reflexivity. Qed.

(** ** Unfolding lemmas *)

Lemma WAD_value : WAD = 10 ^ 18.
Proof. reflexivity. Qed.

Lemma BASE_value : BASE = 10 ^ 9.
Proof. reflexivity. Qed.

Lemma diff_value : WAD / BASE = 1000000000.
Proof. reflexivity. Qed.

(** The [if dt != 0] branch returns [BASE + offset]. *)
Lemma compute_multiplier_nonzero (r dt : Z) :
  dt <> 0 -> compute_multiplier r dt = BASE + offset_of r dt.
Proof.
  intros Hdt. unfold compute_multiplier, offset_of.
  destruct (Z.eqb_spec dt 0) as [E | _]; [contradiction | reflexivity].
Qed.

Lemma compute_multiplier_zero_dt (r : Z) : compute_multiplier r 0 = BASE.
Proof. reflexivity. Qed.

Lemma compute_multiplier_zero_rate (dt : Z) : compute_multiplier 0 dt = BASE.
Proof.
  destruct (Z.eq_dec dt 0) as [-> | Hdt]; [reflexivity |].
  rewrite compute_multiplier_nonzero by assumption. unfold offset_of.
  change (0 * 0 / WAD) with 0. change (0 * 0 / WAD) with 0.
  rewrite !Z.mul_0_r. reflexivity.
Qed.

Lemma calculate_interest_advancing (P s c D R : Z) :
  s < c ->
  calculate_interest P s c D R
  = P * compute_multiplier (apy_to_rate_per_second R) (c * D - s * D) / BASE.
Proof.
  intros Hsc. unfold calculate_interest.
  destruct (Z.gtb_spec c s) as [_ | Hle]; [reflexivity | lia].
Qed.

Lemma calculate_interest_not_advancing (P s c D R : Z) :
  c <= s -> calculate_interest P s c D R = P.
Proof.
  intros Hcs. unfold calculate_interest.
  destruct (Z.gtb_spec c s) as [Hlt | _]; [lia | reflexivity].
Qed.

(** ** The rate conversion *)

(** C8: [apy_to_rate_per_second apy] is the single floor division of
    [apy * 10^18] by [1000 * 31_536_000], where [31_536_000] is
    [SECONDS_PER_YEAR]; in particular a zero APY gives a zero rate. *)
Theorem apy_to_rate_per_second_formula :
  SECONDS_PER_YEAR = 31536000
  /\ (forall apy : Z,
        apy_to_rate_per_second apy = (apy * 10 ^ 18) / (1000 * 31536000))
  /\ apy_to_rate_per_second 0 = 0.
Proof.
  split; [reflexivity |]. split; [| reflexivity].
  intros apy. reflexivity.
Qed.

(** ** The multiplier, as the spec writes it *)

(** C1: for [dt >= 0], [compute_multiplier r dt] is [BASE = 10^9] when
    [dt = 0] and otherwise [BASE + (dt*r + second_term + third_term) //
    (WAD // BASE)], each intermediate value being floor-divided where the
    spec says and in that order, with [WAD = 10^18]. *)
Theorem compute_multiplier_formula (r dt : Z) :
  0 <= dt ->
  BASE = 10 ^ 9 /\ WAD = 10 ^ 18 /\
  compute_multiplier r dt
  = if dt =? 0 then BASE
    else
      let base_power_two := (r * r) / WAD in
      let base_power_three := (base_power_two * r) / WAD in
      let temp := dt * (dt - 1) in
      let exp_minus_two := if dt >? 2 then dt - 2 else 0 in
      let second_term := (temp * base_power_two) / 2 in
      let third_term := (temp * exp_minus_two * base_power_three) / 6 in
      BASE + (dt * r + second_term + third_term) / (WAD / BASE).
Proof.
  intros _. split; [reflexivity |]. split; [reflexivity |].
  unfold compute_multiplier. destruct (dt =? 0); reflexivity.
Qed.

Lemma compute_multiplier_formula_witness :
  0 <= 31536000
  /\ compute_multiplier 1268391679 31536000 = 1040497259.
Proof.
  split; [lia |].
  destruct (compute_multiplier_formula 1268391679 31536000) as (_ & _ & E);
    [lia |].
  rewrite E. vm_compute. reflexivity.
Defined.

(** Combining the fractions before dividing is not the same function: at a
    4.0% APY over one year the two differ in the fourth decimal. *)
Lemma regrouping_changes_the_result :
  compute_multiplier 1268391679 31536000 = 1040497259
  /\ compute_multiplier_regrouped 1268391679 31536000 = 1040810666.
Proof. split; vm_compute; reflexivity. Qed.

(** ** Applying the multiplier *)

(** C2: when [current_epoch > start_epoch] the result is
    [principal * compute_multiplier (apy_to_rate_per_second interest_rate) dt
    // BASE] with [dt = (current_epoch - start_epoch) * epoch_duration]; the
    code's [current_epoch * epoch_duration - start_epoch * epoch_duration] is
    that same elapsed time. *)
Theorem calculate_interest_formula (P s c D R : Z) :
  c > s ->
  calculate_interest P s c D R
  = P * compute_multiplier (apy_to_rate_per_second R) ((c - s) * D) / BASE.
Proof.
  intros Hcs. rewrite calculate_interest_advancing by lia.
  replace (c * D - s * D) with ((c - s) * D) by ring. reflexivity.
Qed.

Lemma calculate_interest_formula_witness :
  52560 > 0
  /\ calculate_interest 1000 0 52560 600 40
     = 1000 * compute_multiplier (apy_to_rate_per_second 40)
                ((52560 - 0) * 600) / BASE.
Proof.
  split; [lia |].
  apply (calculate_interest_formula 1000 0 52560 600 40). lia.
Defined.

(** C5: whenever [c <= s] the principal comes back unchanged, for every
    principal, duration and rate; this covers [s = c = 0] and epochs that
    run backwards alike. *)
Theorem calculate_interest_no_accrual (P s c D R : Z) :
  c <= s -> calculate_interest P s c D R = P.
Proof. apply calculate_interest_not_advancing. Qed.

Lemma calculate_interest_no_accrual_witness :
  0 <= 0
  /\ calculate_interest 1000 0 0 600 40 = 1000
  /\ calculate_interest 1000 9 4 600 40 = 1000.
Proof.
  split; [lia |]. split.
  - apply (calculate_interest_no_accrual 1000 0 0 600 40). lia.
  - apply (calculate_interest_no_accrual 1000 9 4 600 40). lia.
Defined.

(** C10: at a zero APY the per-second rate is zero, the multiplier is
    [BASE] for every [dt], and [calculate_interest] returns the principal
    exactly, for all integers [principal], [start_epoch], [current_epoch]
    and [epoch_duration], advancing epochs included. *)
Theorem calculate_interest_zero_rate :
  apy_to_rate_per_second 0 = 0
  /\ (forall dt : Z, compute_multiplier 0 dt = BASE)
  /\ (forall P s c D : Z, calculate_interest P s c D 0 = P).
Proof.
  split; [reflexivity |]. split; [apply compute_multiplier_zero_rate |].
  intros P s c D. destruct (Z_lt_le_dec s c) as [Hlt | Hle].
  - rewrite calculate_interest_advancing by assumption.
    change (apy_to_rate_per_second 0) with 0.
    rewrite compute_multiplier_zero_rate. apply Z.div_mul. discriminate.
  - apply calculate_interest_not_advancing. assumption.
Qed.

(** ** Monotonicity of the multiplier *)

Section Monotone.

Lemma clamp_nonneg (dt : Z) : 0 <= clamp dt.
Proof. unfold clamp. destruct (Z.gtb_spec dt 2); lia. Qed.

Lemma clamp_mono (dt1 dt2 : Z) : dt1 <= dt2 -> clamp dt1 <= clamp dt2.
Proof.
  intros H. unfold clamp.
  destruct (Z.gtb_spec dt1 2), (Z.gtb_spec dt2 2); lia.
Qed.

Lemma temp_mono (dt1 dt2 : Z) :
  1 <= dt1 <= dt2 -> 0 <= dt1 * (dt1 - 1) <= dt2 * (dt2 - 1).
Proof. intros H. split; [nia |]. apply Z.mul_le_mono_nonneg; lia. Qed.

Lemma base_power_two_mono (r1 r2 : Z) :
  0 <= r1 <= r2 -> 0 <= r1 * r1 / WAD <= r2 * r2 / WAD.
Proof.
  intros H. split.
  - apply Z.div_pos; [nia | reflexivity].
  - apply Z.div_le_mono; [reflexivity |].
    apply Z.mul_le_mono_nonneg; lia.
Qed.

Lemma base_power_three_mono (r1 r2 : Z) :
  0 <= r1 <= r2 ->
  0 <= r1 * r1 / WAD * r1 / WAD <= r2 * r2 / WAD * r2 / WAD.
Proof.
  intros H. pose proof (base_power_two_mono r1 r2 H) as H2. split.
  - apply Z.div_pos; [| reflexivity]. apply Z.mul_nonneg_nonneg; lia.
  - apply Z.div_le_mono; [reflexivity |].
    apply Z.mul_le_mono_nonneg; lia.
Qed.

(** The offset grows with the rate and with the elapsed time together. *)
Lemma offset_of_mono (r1 r2 dt1 dt2 : Z) :
  0 <= r1 <= r2 -> 1 <= dt1 <= dt2 ->
  offset_of r1 dt1 <= offset_of r2 dt2.
Proof.
  intros Hr Hdt. unfold offset_of. fold (clamp dt1) (clamp dt2).
  pose proof (temp_mono dt1 dt2 Hdt) as Ht.
  pose proof (base_power_two_mono r1 r2 Hr) as H2.
  pose proof (base_power_three_mono r1 r2 Hr) as H3.
  pose proof (clamp_nonneg dt1) as Hc.
  pose proof (clamp_mono dt1 dt2 (proj2 Hdt)) as Hcm.
  apply Z.div_le_mono; [reflexivity |].
  repeat apply Z.add_le_mono.
  - apply Z.mul_le_mono_nonneg; lia.
  - apply Z.div_le_mono; [reflexivity |].
    apply Z.mul_le_mono_nonneg; lia.
  - apply Z.div_le_mono; [reflexivity |].
    apply Z.mul_le_mono_nonneg; try lia.
    + apply Z.mul_nonneg_nonneg; lia.
    + apply Z.mul_le_mono_nonneg; lia.
Qed.

Lemma offset_of_nonneg (r dt : Z) : 0 <= r -> 1 <= dt -> 0 <= offset_of r dt.
Proof.
  intros Hr Hdt.
  assert (E : offset_of 0 1 = 0) by reflexivity.
  rewrite <- E. apply offset_of_mono; lia.
Qed.

End Monotone.

Lemma apy_to_rate_per_second_nonneg (apy : Z) :
  0 <= apy -> 0 <= apy_to_rate_per_second apy.
Proof.
  intros H. unfold apy_to_rate_per_second.
  apply Z.div_pos; [| reflexivity].
  apply Z.mul_nonneg_nonneg; [assumption | discriminate].
Qed.

(** C6: for a fixed rate [r >= 0] and [0 <= dt1 < dt2],
    [compute_multiplier r dt1 <= compute_multiplier r dt2]. *)
Theorem compute_multiplier_mono_dt (r dt1 dt2 : Z) :
  0 <= r -> 0 <= dt1 < dt2 ->
  compute_multiplier r dt1 <= compute_multiplier r dt2.
Proof.
  intros Hr [Hlo Hlt].
  rewrite (compute_multiplier_nonzero r dt2) by lia.
  destruct (Z.eq_dec dt1 0) as [-> | Hnz].
  - rewrite compute_multiplier_zero_dt.
    pose proof (offset_of_nonneg r dt2 Hr). lia.
  - rewrite (compute_multiplier_nonzero r dt1) by assumption.
    apply Z.add_le_mono_l. apply offset_of_mono; lia.
Qed.

Lemma compute_multiplier_mono_dt_witness :
  0 <= 1268391679 /\ 0 <= 600 < 31536000
  /\ compute_multiplier 1268391679 600
     <= compute_multiplier 1268391679 31536000.
Proof.
  split; [lia |]. split; [lia |].
  apply (compute_multiplier_mono_dt 1268391679 600 31536000); lia.
Defined.

(** C7: for a fixed elapsed time [dt > 0] and [0 <= r1 < r2],
    [compute_multiplier r1 dt <= compute_multiplier r2 dt]. *)
Theorem compute_multiplier_mono_rate (r1 r2 dt : Z) :
  dt > 0 -> 0 <= r1 < r2 ->
  compute_multiplier r1 dt <= compute_multiplier r2 dt.
Proof.
  intros Hdt Hr.
  rewrite !compute_multiplier_nonzero by lia.
  apply Z.add_le_mono_l. apply offset_of_mono; lia.
Qed.

Lemma compute_multiplier_mono_rate_witness :
  31536000 > 0 /\ 0 <= 1268391679 < 1648909183
  /\ compute_multiplier 1268391679 31536000
     <= compute_multiplier 1648909183 31536000.
Proof.
  split; [lia |]. split; [lia |].
  apply (compute_multiplier_mono_rate 1268391679 1648909183 31536000); lia.
Defined.

(** C4: with [principal >= 0], [epoch_duration > 0], [interest_rate >= 0]
    and [current_epoch > start_epoch], the accrued value is at least the
    principal. *)
Theorem calculate_interest_ge_principal (P s c D R : Z) :
  P >= 0 -> D > 0 -> R >= 0 -> c > s ->
  calculate_interest P s c D R >= P.
Proof.
  intros HP HD HR Hcs. rewrite calculate_interest_advancing by lia.
  assert (Hdt : 1 <= c * D - s * D) by nia.
  rewrite compute_multiplier_nonzero by lia.
  pose proof (offset_of_nonneg (apy_to_rate_per_second R) (c * D - s * D)
                (apy_to_rate_per_second_nonneg R ltac:(lia)) Hdt) as Hoff.
  apply Z.le_ge.
  rewrite <- (Z.div_mul P BASE) at 1 by discriminate.
  apply Z.div_le_mono; [reflexivity |].
  apply Z.mul_le_mono_nonneg_l; lia.
Qed.

Lemma calculate_interest_ge_principal_witness :
  1000 >= 0 /\ 600 > 0 /\ 40 >= 0 /\ 52560 > 0
  /\ calculate_interest 1000 0 52560 600 40 >= 1000.
Proof.
  repeat (split; [lia |]).
  apply (calculate_interest_ge_principal 1000 0 52560 600 40); lia.
Defined.

(** ** The one-year scenario *)

(** C9: for a principal of [1000 * 10^18] over [52560] epochs of [600]
    seconds at rate [40], the result exceeds the principal and the interest
    earned lies closer to [40.81 * 10^18] than to [40 * 10^18]. *)
Theorem one_year_scenario :
  let principal := 1000 * 10 ^ 18 in
  let result := calculate_interest principal 0 52560 600 40 in
  result > principal
  /\ Z.abs (result - principal - 4081 * 10 ^ 16)
     < Z.abs (result - principal - 40 * 10 ^ 18).
Proof. vm_compute. split; reflexivity. Qed.

(** The value itself: an interest of [40.497259 * 10^18]. *)
Lemma interest_earned_in_one_year :
  calculate_interest (1000 * 10 ^ 18) 0 52560 600 40
  = 1040497259 * 10 ^ 12.
Proof. vm_compute. reflexivity. Qed.

(** ** The rational model and the program *)

Module RationalFacts.

Import Rational.
Local Open Scope Q_scope.

Lemma inject_Z_minus (a b : Z) :
  inject_Z (a - b) = inject_Z a - inject_Z b.
Proof.
  unfold Qminus. rewrite <- inject_Z_opp, <- inject_Z_plus. reflexivity.
Qed.

Lemma floor_div_inject (a b : Z) :
  floor_div (inject_Z a) (inject_Z b) = inject_Z (a / b).
Proof. unfold floor_div. rewrite <- Zdiv_Qdiv. reflexivity. Qed.

Lemma Qeq_bool_inject (a b : Z) :
  Qeq_bool (inject_Z a) (inject_Z b) = (a =? b)%Z.
Proof. unfold Qeq_bool. simpl. rewrite !Z.mul_1_r. reflexivity. Qed.

Lemma Qle_bool_inject (a b : Z) :
  Qle_bool (inject_Z a) (inject_Z b) = (a <=? b)%Z.
Proof. unfold Qle_bool. simpl. rewrite !Z.mul_1_r. reflexivity. Qed.

Lemma gtb_negb_leb (a b : Z) : (a >? b)%Z = negb (a <=? b)%Z.
Proof. rewrite Z.gtb_ltb, Z.leb_antisym, negb_involutive. reflexivity. Qed.

(** At [floor_div] the rational offset is the program's [offset]. *)
Lemma offset_with_floor (r dt : Z) :
  offset_with floor_div (inject_Z r) (inject_Z dt) = inject_Z (offset_of r dt).
Proof.
  unfold offset_with, offset_of, WADq, BASEq.
  change 1 with (inject_Z 1). change 2 with (inject_Z 2).
  change 6 with (inject_Z 6). change 0 with (inject_Z 0).
  rewrite Qle_bool_inject, <- gtb_negb_leb.
  replace (if (dt >? 2)%Z then inject_Z dt - inject_Z 2 else inject_Z 0)
    with (inject_Z (if (dt >? 2)%Z then dt - 2 else 0))
    by (destruct (dt >? 2)%Z; [apply inject_Z_minus | reflexivity]).
  repeat (rewrite <- ?inject_Z_minus, <- ?inject_Z_mult, <- ?inject_Z_plus,
            ?floor_div_inject).
  reflexivity.
Qed.

(** At [floor_div] the rational model is [compute_multiplier]. *)
Lemma floor_model_refines (r dt : Z) :
  compute_multiplier_with floor_div (inject_Z r) (inject_Z dt)
  = inject_Z (compute_multiplier r dt).
Proof.
  unfold compute_multiplier_with.
  change 0 with (inject_Z 0). rewrite Qeq_bool_inject.
  destruct (Z.eqb_spec dt 0) as [-> | Hnz]; cbn [negb].
  - reflexivity.
  - rewrite offset_with_floor, compute_multiplier_nonzero by assumption.
    unfold BASEq. rewrite <- inject_Z_plus. reflexivity.
Qed.

End RationalFacts.

(** ** The polynomial behind the multiplier *)

Module Series.

Import Rational RationalFacts.
Local Open Scope Q_scope.

Lemma inject_Z_nonzero (n : Z) : n <> 0%Z -> ~ inject_Z n == 0.
Proof. intros Hn E. apply Hn. unfold Qeq in E. simpl in E. lia. Qed.

(** Above the clamp the exact offset is the binomial polynomial. *)
Lemma offset_exact_above_clamp (r dt : Z) :
  (2 < dt)%Z -> offset_exact r dt == binomial3 r dt.
Proof.
  intros Hdt. unfold offset_exact, offset_with, binomial3.
  change (Qle_bool (inject_Z dt) 2)
    with (Qle_bool (inject_Z dt) (inject_Z 2)).
  rewrite Qle_bool_inject.
  destruct (Z.leb_spec dt 2) as [Hle | _]; [lia |]. cbn [negb].
  unfold WADq, BASEq, WAD, BASE. simpl inject_Z. field.
Qed.

(** At [dt = 1] and [dt = 2] the clamp replaces a factor that the binomial
    coefficient [C(dt,3)] cancels anyway. *)
Lemma offset_exact_at_clamp (r dt : Z) :
  dt = 1%Z \/ dt = 2%Z -> offset_exact r dt == binomial3 r dt.
Proof.
  intros [-> | ->]; unfold offset_exact, offset_with, binomial3;
    cbn [Qle_bool inject_Z Qnum Qden Z.leb Z.mul Z.compare Pos.mul
         Pos.compare Pos.compare_cont negb];
    unfold WADq, BASEq, WAD, BASE; simpl inject_Z; field.
Qed.

Lemma binomial3_damped (r dt : Z) :
  dt <> 0%Z -> binomial3 r dt == taylor3_damped r dt.
Proof.
  intros Hdt. unfold binomial3, taylor3_damped.
  unfold WADq, BASEq, WAD, BASE. simpl (inject_Z 1000000000).
  simpl (inject_Z 1000000000000000000).
  field. apply inject_Z_nonzero. assumption.
Qed.

(** C3, as the code has it: with every floor division made exact, for
    [r >= 0] and [dt > 0] the offset is
    [BASE * (dt*y + C(dt,2)*y^2 + C(dt,3)*y^3)] with [y = r / WAD], the terms
    of degree one to three of the binomial expansion of [(1 + y)^dt].  In
    terms of [x = r * dt / WAD] this is
    [BASE * (x + (1 - 1/dt) * x^2/2 + (1 - 1/dt) * (1 - 2/dt) * x^3/6)]: the
    Taylor polynomial of [e^x - 1] with its second and third terms damped. *)
Theorem exact_offset_is_binomial (r dt : Z) :
  (r >= 0)%Z -> (dt > 0)%Z ->
  offset_exact r dt == binomial3 r dt
  /\ offset_exact r dt == taylor3_damped r dt.
Proof.
  intros _ Hdt.
  assert (E : offset_exact r dt == binomial3 r dt).
  { destruct (Z_lt_le_dec 2 dt) as [Hgt | Hle].
    - apply offset_exact_above_clamp. assumption.
    - apply offset_exact_at_clamp. lia. }
  split; [exact E |].
  rewrite E. apply binomial3_damped. lia.
Qed.

Lemma exact_offset_is_binomial_witness :
  (1000000000000000000 >= 0)%Z /\ (2 > 0)%Z
  /\ offset_exact 1000000000000000000 2
     == binomial3 1000000000000000000 2.
Proof.
  split; [lia |]. split; [lia |].
  apply (exact_offset_is_binomial 1000000000000000000 2); lia.
Defined.

(** C3, as the spec has it, fails: at [r = WAD] and [dt = 2] the exact
    offset is [3 * BASE] while [BASE * (x + x^2/2 + x^3/6)] at [x = 2] is
    [16/3 * BASE]. *)
Lemma exact_offset_is_not_taylor :
  (1000000000000000000 >= 0)%Z /\ (2 > 0)%Z
  /\ offset_exact 1000000000000000000 2 == 3000000000 # 1
  /\ taylor3 1000000000000000000 2 == 16000000000 # 3
  /\ ~ offset_exact 1000000000000000000 2 == taylor3 1000000000000000000 2.
Proof.
  split; [lia |]. split; [lia |].
  split; [vm_compute; reflexivity |]. split; [vm_compute; reflexivity |].
  unfold Qeq. vm_compute. discriminate.
Qed.

(** The same failure at the rate of a 4.0% APY over one year. *)
Lemma one_year_offset_differs_from_taylor :
  ~ offset_exact 1268391679 31536000 == taylor3 1268391679 31536000.
Proof. unfold Qeq. vm_compute. discriminate. Qed.

End Series.

(** ** Further properties of the rate conversion *)

Lemma apy_to_rate_per_second_le (a b : Z) :
  a <= b -> apy_to_rate_per_second a <= apy_to_rate_per_second b.
Proof.
  intros H. unfold apy_to_rate_per_second.
  apply Z.div_le_mono; [reflexivity |].
  apply Z.mul_le_mono_nonneg_r; [discriminate | assumption].
Qed.

(** X1: the conversion is monotone: a larger APY never gives a smaller
    per-second rate. *)
Theorem apy_to_rate_per_second_mono (apy1 apy2 : Z) :
  apy1 <= apy2 ->
  apy_to_rate_per_second apy1 <= apy_to_rate_per_second apy2.
Proof. apply apy_to_rate_per_second_le. Qed.

Lemma apy_to_rate_per_second_mono_witness :
  40 <= 52 /\ apy_to_rate_per_second 40 <= apy_to_rate_per_second 52.
Proof.
  split; [lia |]. apply (apy_to_rate_per_second_mono 40 52). lia.
Defined.

(** X2: the floor division keeps the sign of the APY: no positive APY is
    truncated to a zero rate, and a negative APY gives a negative rate. *)
Theorem apy_to_rate_per_second_sgn (apy : Z) :
  Z.sgn (apy_to_rate_per_second apy) = Z.sgn apy.
Proof.
  destruct (Z.lt_trichotomy apy 0) as [Hneg | [-> | Hpos]].
  - pose proof (apy_to_rate_per_second_le apy (-1) ltac:(lia)) as H.
    change (apy_to_rate_per_second (-1)) with (-31709792) in H.
    rewrite !Z.sgn_neg by lia. reflexivity.
  - reflexivity.
  - pose proof (apy_to_rate_per_second_le 1 apy ltac:(lia)) as H.
    change (apy_to_rate_per_second 1) with 31709791 in H.
    rewrite !Z.sgn_pos by lia. reflexivity.
Qed.

(** X3: for a non-negative APY every tenth of a percent is worth between
    [31709791] and [31709792] units of rate per second. *)
Theorem apy_to_rate_per_second_bounds (apy : Z) :
  0 <= apy ->
  31709791 * apy <= apy_to_rate_per_second apy <= 31709792 * apy.
Proof.
  intros H. unfold apy_to_rate_per_second, WAD, SECONDS_PER_YEAR. split.
  - apply Z.div_le_lower_bound; lia.
  - apply Z.div_le_upper_bound; lia.
Qed.

Lemma apy_to_rate_per_second_bounds_witness :
  0 <= 40
  /\ 31709791 * 40 <= apy_to_rate_per_second 40 <= 31709792 * 40.
Proof.
  split; [lia |]. apply (apy_to_rate_per_second_bounds 40). lia.
Defined.

(** ** Further properties of the multiplier *)

Lemma base_power_two_small (r : Z) :
  - 10 ^ 9 < r < 10 ^ 9 -> r * r / WAD = 0.
Proof.
  intros H. apply Z.div_small. unfold WAD.
  change (10 ^ 9) with 1000000000 in H. nia.
Qed.

Lemma base_power_three_small (r : Z) :
  0 <= r < 10 ^ 12 -> r * r / WAD * r / WAD = 0.
Proof.
  intros H. change (10 ^ 12) with 1000000000000 in H.
  assert (H2 : 0 <= r * r / WAD < 1000000).
  { split.
    - apply Z.div_pos; [nia | reflexivity].
    - apply Z.div_lt_upper_bound; [reflexivity |]. unfold WAD. nia. }
  apply Z.div_small. unfold WAD in *. split.
  - apply Z.mul_nonneg_nonneg; lia.
  - apply Z.le_lt_trans with (999999 * r); [| lia].
    apply Z.mul_le_mono_nonneg_r; lia.
Qed.

Lemma compute_multiplier_linear (r dt : Z) :
  - 10 ^ 9 < r < 10 ^ 9 ->
  compute_multiplier r dt = BASE + dt * r / 10 ^ 9.
Proof.
  intros Hr. destruct (Z.eq_dec dt 0) as [-> | Hdt]; [reflexivity |].
  rewrite compute_multiplier_nonzero by assumption. unfold offset_of.
  rewrite (base_power_two_small r Hr).
  change (0 * r / WAD) with 0. rewrite !Z.mul_0_r.
  change (0 / 2) with 0. change (0 / 6) with 0. rewrite !Z.add_0_r.
  reflexivity.
Qed.

(** X4: below a rate of [10^9] in absolute value the rescaled square of the
    rate floors to zero, and the multiplier is linear in the elapsed time:
    [BASE + dt * r // 10^9], for every [dt]. *)
Theorem compute_multiplier_small_rate (r dt : Z) :
  - 10 ^ 9 < r < 10 ^ 9 ->
  compute_multiplier r dt = BASE + dt * r / 10 ^ 9.
Proof. apply compute_multiplier_linear. Qed.

Lemma compute_multiplier_small_rate_witness :
  - 10 ^ 9 < 983003551 < 10 ^ 9
  /\ compute_multiplier 983003551 31536000
     = BASE + 31536000 * 983003551 / 10 ^ 9.
Proof.
  split; [lia |].
  apply (compute_multiplier_small_rate 983003551 31536000). lia.
Defined.

(** X5: below a rate of [10^12] the rescaled cube of the rate floors to
    zero, so the third-order term never contributes. *)
Theorem compute_multiplier_no_cubic_term (r dt : Z) :
  0 <= r < 10 ^ 12 ->
  compute_multiplier r dt
  = BASE + (dt * r + dt * (dt - 1) * (r * r / WAD) / 2) / 10 ^ 9.
Proof.
  intros Hr. destruct (Z.eq_dec dt 0) as [-> | Hdt]; [reflexivity |].
  rewrite compute_multiplier_nonzero by assumption. unfold offset_of.
  rewrite (base_power_three_small r Hr). rewrite Z.mul_0_r.
  change (0 / 6) with 0. rewrite Z.add_0_r. reflexivity.
Qed.

Lemma compute_multiplier_no_cubic_term_witness :
  0 <= 1268391679 < 10 ^ 12
  /\ compute_multiplier 1268391679 31536000
     = BASE + (31536000 * 1268391679
               + 31536000 * (31536000 - 1)
                 * (1268391679 * 1268391679 / WAD) / 2) / 10 ^ 9.
Proof.
  split; [lia |].
  apply (compute_multiplier_no_cubic_term 1268391679 31536000). lia.
Defined.

Lemma compute_multiplier_simple_le (r dt : Z) :
  0 <= r -> 0 <= dt ->
  BASE <= BASE + dt * r / 10 ^ 9 <= compute_multiplier r dt.
Proof.
  intros Hr Hdt. split.
  - assert (0 <= dt * r / 10 ^ 9); [| lia].
    apply Z.div_pos; [nia | reflexivity].
  - destruct (Z.eq_dec dt 0) as [-> | Hnz]; [discriminate |].
    rewrite compute_multiplier_nonzero by assumption. unfold offset_of.
    apply Z.add_le_mono_l. apply Z.div_le_mono; [reflexivity |].
    pose proof (base_power_two_mono 0 r ltac:(lia)) as [_ H2].
    pose proof (base_power_three_mono 0 r ltac:(lia)) as [_ H3].
    change (0 * 0 / WAD * 0 / WAD) with 0 in H3.
    change (0 * 0 / WAD) with 0 in H2.
    pose proof (clamp_nonneg dt) as Hc. unfold clamp in Hc.
    assert (0 <= dt * (dt - 1) * (r * r / WAD) / 2).
    { apply Z.div_pos; [| reflexivity].
      apply Z.mul_nonneg_nonneg; [nia | lia]. }
    assert (0 <= dt * (dt - 1) * (if dt >? 2 then dt - 2 else 0)
                 * (r * r / WAD * r / WAD) / 6).
    { apply Z.div_pos; [| reflexivity].
      apply Z.mul_nonneg_nonneg; [| lia].
      apply Z.mul_nonneg_nonneg; [nia | lia]. }
    lia.
Qed.

(** X6: for [r >= 0] and [dt >= 0] the multiplier is at least the
    simple-interest multiplier [BASE + dt * r // 10^9], hence at least
    [BASE]. *)
Theorem compute_multiplier_ge_simple (r dt : Z) :
  0 <= r -> 0 <= dt ->
  BASE <= BASE + dt * r / 10 ^ 9 <= compute_multiplier r dt.
Proof. apply compute_multiplier_simple_le. Qed.

Lemma compute_multiplier_ge_simple_witness :
  0 <= 1268391679 /\ 0 <= 31536000
  /\ BASE <= BASE + 31536000 * 1268391679 / 10 ^ 9
          <= compute_multiplier 1268391679 31536000.
Proof.
  split; [lia |]. split; [lia |].
  apply (compute_multiplier_ge_simple 1268391679 31536000); lia.
Defined.

(** X7: for [r >= 0] and [dt >= 0] the multiplier stays at [BASE] exactly
    as long as [dt * r < 10^9]: below that product nothing accrues, from
    it on the multiplier exceeds [BASE]. *)
Theorem compute_multiplier_accrues_iff (r dt : Z) :
  0 <= r -> 0 <= dt ->
  compute_multiplier r dt = BASE <-> dt * r < 10 ^ 9.
Proof.
  intros Hr Hdt. change (10 ^ 9) with 1000000000. split.
  - intros E. destruct (Z_lt_le_dec (dt * r) 1000000000) as [Hlt | Hge];
      [assumption | exfalso].
    pose proof (compute_multiplier_simple_le r dt Hr Hdt) as [_ H].
    change (10 ^ 9) with 1000000000 in H.
    assert (1 <= dt * r / 1000000000)
      by (apply Z.div_le_lower_bound; lia).
    lia.
  - intros Hlt. destruct (Z.eq_dec dt 0) as [-> | Hnz]; [reflexivity |].
    assert (Hsmall : - 10 ^ 9 < r < 10 ^ 9)
      by (change (10 ^ 9) with 1000000000; nia).
    rewrite compute_multiplier_linear by assumption.
    change (10 ^ 9) with 1000000000.
    rewrite Z.div_small by nia. reflexivity.
Qed.

Lemma compute_multiplier_accrues_iff_witness :
  0 <= 31709791 /\ 0 <= 31
  /\ compute_multiplier 31709791 31 = BASE.
Proof.
  split; [lia |]. split; [lia |].
  apply (compute_multiplier_accrues_iff 31709791 31); [lia | lia |].
  reflexivity.
Defined.

(** X8: after one second the multiplier is [BASE + r // 10^9] and after
    two seconds [BASE + (2*r + r*r // WAD) // 10^9], for every rate: the
    second-order term starts at [dt = 2] and the third-order term at
    [dt = 3]. *)
Theorem compute_multiplier_first_seconds (r : Z) :
  compute_multiplier r 1 = BASE + r / 10 ^ 9
  /\ compute_multiplier r 2 = BASE + (2 * r + r * r / WAD) / 10 ^ 9.
Proof.
  split.
  - rewrite compute_multiplier_nonzero by discriminate. unfold offset_of.
    cbn [Z.gtb Z.compare Pos.compare Pos.compare_cont Z.sub Z.add Z.opp
         Z.pos_sub Pos.pred_double Z.succ_double Z.pred_double Z.double].
    rewrite !Z.mul_0_r, !Z.mul_0_l, !Z.mul_1_l. change (0 / 2) with 0.
    change (0 / 6) with 0. rewrite !Z.add_0_r. reflexivity.
  - rewrite compute_multiplier_nonzero by discriminate. unfold offset_of.
    change (2 >? 2) with false. change (2 - 1) with 1.
    rewrite Z.mul_1_r, !Z.mul_0_r, !Z.mul_0_l. change (0 / 6) with 0.
    rewrite Z.add_0_r, (Z.mul_comm 2 (r * r / WAD)), Z.div_mul by discriminate.
    reflexivity.
Qed.

(** ** Further properties of the accrual *)

(** Both branches at once: the multiplier is applied for
    [max 0 (c - s) * D] elapsed seconds. *)
Lemma calculate_interest_elapsed (P s c D R : Z) :
  calculate_interest P s c D R
  = P * compute_multiplier (apy_to_rate_per_second R)
          (Z.max 0 (c - s) * D) / BASE.
Proof.
  destruct (Z_lt_le_dec s c) as [Hlt | Hle].
  - rewrite calculate_interest_advancing by assumption.
    rewrite Z.max_r by lia.
    replace (c * D - s * D) with ((c - s) * D) by ring. reflexivity.
  - rewrite calculate_interest_not_advancing by assumption.
    rewrite Z.max_l by lia. rewrite Z.mul_0_l, compute_multiplier_zero_dt.
    symmetry. apply Z.div_mul. discriminate.
Qed.

(** The multiplier grows with the rate and the elapsed time together, the
    case [dt = 0] included. *)
Lemma compute_multiplier_le (r1 r2 dt1 dt2 : Z) :
  0 <= r1 <= r2 -> 0 <= dt1 <= dt2 ->
  BASE <= compute_multiplier r1 dt1 <= compute_multiplier r2 dt2.
Proof.
  intros Hr Hdt.
  destruct (Z.eq_dec dt1 0) as [-> | H1].
  - rewrite compute_multiplier_zero_dt. split; [lia |].
    destruct (Z.eq_dec dt2 0) as [-> | H2]; [reflexivity |].
    rewrite compute_multiplier_nonzero by assumption.
    pose proof (offset_of_nonneg r2 dt2). lia.
  - rewrite !compute_multiplier_nonzero by lia.
    pose proof (offset_of_nonneg r1 dt1).
    pose proof (offset_of_mono r1 r2 dt1 dt2). lia.
Qed.

Lemma scale_by_multiplier_le (P m1 m2 : Z) :
  0 <= P -> m1 <= m2 -> P * m1 / BASE <= P * m2 / BASE.
Proof.
  intros HP Hm. apply Z.div_le_mono; [reflexivity |].
  apply Z.mul_le_mono_nonneg_l; assumption.
Qed.

(** X9: for an APY of 0 to 31 tenths of a percent the rate stays below
    [10^9], so the accrual is simple interest: the principal is scaled by
    [BASE + dt * rate // 10^9] with [dt = (c - s) * D]. *)
Theorem calculate_interest_simple_below_32 (P s c D R : Z) :
  0 <= R <= 31 -> c > s ->
  calculate_interest P s c D R
  = P * (BASE + (c - s) * D * apy_to_rate_per_second R / 10 ^ 9) / BASE.
Proof.
  intros HR Hcs. rewrite calculate_interest_advancing by lia.
  replace (c * D - s * D) with ((c - s) * D) by ring.
  pose proof (apy_to_rate_per_second_le 0 R ltac:(lia)) as Hlo.
  pose proof (apy_to_rate_per_second_le R 31 ltac:(lia)) as Hhi.
  change (apy_to_rate_per_second 0) with 0 in Hlo.
  change (apy_to_rate_per_second 31) with 983003551 in Hhi.
  rewrite compute_multiplier_linear by lia. reflexivity.
Qed.

Lemma calculate_interest_simple_below_32_witness :
  0 <= 31 <= 31 /\ 52560 > 0
  /\ calculate_interest 1000 0 52560 600 31
     = 1000 * (BASE + (52560 - 0) * 600 * apy_to_rate_per_second 31
                      / 10 ^ 9) / BASE.
Proof.
  split; [lia |]. split; [lia |].
  apply (calculate_interest_simple_below_32 1000 0 52560 600 31); lia.
Defined.

(** X10: with [epoch_duration = 0] no time elapses whatever the epochs are,
    and the principal comes back unchanged. *)
Theorem calculate_interest_zero_duration (P s c R : Z) :
  calculate_interest P s c 0 R = P.
Proof.
  rewrite calculate_interest_elapsed, Z.mul_0_r, compute_multiplier_zero_dt.
  apply Z.div_mul. discriminate.
Qed.

(** X11: the result depends on the epochs only through their difference:
    shifting both epochs by the same amount changes nothing. *)
Theorem calculate_interest_shift (P s c D R k : Z) :
  calculate_interest P (s + k) (c + k) D R = calculate_interest P s c D R.
Proof.
  rewrite !calculate_interest_elapsed.
  replace (c + k - (s + k)) with (c - s) by ring. reflexivity.
Qed.

(** X12: two advancing calls with the same number of elapsed seconds
    [(c - s) * D] give the same result, however the seconds are split
    between epochs and epoch duration. *)
Theorem calculate_interest_same_elapsed (P s1 c1 D1 s2 c2 D2 R : Z) :
  c1 > s1 -> c2 > s2 -> (c1 - s1) * D1 = (c2 - s2) * D2 ->
  calculate_interest P s1 c1 D1 R = calculate_interest P s2 c2 D2 R.
Proof.
  intros H1 H2 E. rewrite !calculate_interest_elapsed.
  rewrite !Z.max_r by lia. rewrite E. reflexivity.
Qed.

Lemma calculate_interest_same_elapsed_witness :
  52560 > 0 /\ 365 > 0 /\ (52560 - 0) * 600 = (365 - 0) * 86400
  /\ calculate_interest 1000 0 52560 600 40
     = calculate_interest 1000 0 365 86400 40.
Proof.
  split; [lia |]. split; [lia |]. split; [reflexivity |].
  apply (calculate_interest_same_elapsed 1000 0 52560 600 0 365 86400 40);
    [lia | lia | reflexivity].
Defined.

(** X13: for a non-negative principal, duration and rate, a later
    [current_epoch] never gives a smaller result. *)
Theorem calculate_interest_mono_epoch (P s c1 c2 D R : Z) :
  0 <= P -> 0 <= D -> 0 <= R -> c1 <= c2 ->
  calculate_interest P s c1 D R <= calculate_interest P s c2 D R.
Proof.
  intros HP HD HR Hc. rewrite !calculate_interest_elapsed.
  apply scale_by_multiplier_le; [assumption |].
  pose proof (apy_to_rate_per_second_nonneg R HR) as Hrate.
  apply compute_multiplier_le; [lia |]. split.
  - apply Z.mul_nonneg_nonneg; lia.
  - apply Z.mul_le_mono_nonneg_r; lia.
Qed.

Lemma calculate_interest_mono_epoch_witness :
  0 <= 1000 /\ 0 <= 600 /\ 0 <= 40 /\ 1 <= 52560
  /\ calculate_interest 1000 0 1 600 40
     <= calculate_interest 1000 0 52560 600 40.
Proof.
  repeat (split; [lia |]).
  apply (calculate_interest_mono_epoch 1000 0 1 52560 600 40); lia.
Defined.

(** X14: for a non-negative principal and duration, a larger non-negative
    APY never gives a smaller result. *)
Theorem calculate_interest_mono_rate (P s c D R1 R2 : Z) :
  0 <= P -> 0 <= D -> 0 <= R1 <= R2 ->
  calculate_interest P s c D R1 <= calculate_interest P s c D R2.
Proof.
  intros HP HD HR. rewrite !calculate_interest_elapsed.
  apply scale_by_multiplier_le; [assumption |].
  pose proof (apy_to_rate_per_second_nonneg R1 (proj1 HR)) as Hrate.
  pose proof (apy_to_rate_per_second_le R1 R2 (proj2 HR)) as Hle.
  apply compute_multiplier_le; [lia |]. split; [| lia].
  apply Z.mul_nonneg_nonneg; lia.
Qed.

Lemma calculate_interest_mono_rate_witness :
  0 <= 1000 /\ 0 <= 600 /\ 0 <= 40 <= 52
  /\ calculate_interest 1000 0 52560 600 40
     <= calculate_interest 1000 0 52560 600 52.
Proof.
  repeat (split; [lia |]).
  apply (calculate_interest_mono_rate 1000 0 52560 600 40 52); lia.
Defined.

(** X15: for a non-negative duration and rate, a larger principal never
    gives a smaller result; the principals may be negative. *)
Theorem calculate_interest_mono_principal (P1 P2 s c D R : Z) :
  0 <= D -> 0 <= R -> P1 <= P2 ->
  calculate_interest P1 s c D R <= calculate_interest P2 s c D R.
Proof.
  intros HD HR HP. rewrite !calculate_interest_elapsed.
  apply Z.div_le_mono; [reflexivity |].
  apply Z.mul_le_mono_nonneg_r; [| assumption].
  pose proof (apy_to_rate_per_second_nonneg R HR) as Hrate.
  pose proof (compute_multiplier_le (apy_to_rate_per_second R)
                (apy_to_rate_per_second R)
                (Z.max 0 (c - s) * D) (Z.max 0 (c - s) * D)) as H.
  assert (0 <= Z.max 0 (c - s) * D) by (apply Z.mul_nonneg_nonneg; lia).
  unfold BASE in H. lia.
Qed.

Lemma calculate_interest_mono_principal_witness :
  0 <= 600 /\ 0 <= 40 /\ -5 <= 1000
  /\ calculate_interest (-5) 0 52560 600 40
     <= calculate_interest 1000 0 52560 600 40.
Proof.
  repeat (split; [lia |]).
  apply (calculate_interest_mono_principal (-5) 1000 0 52560 600 40); lia.
Defined.

(** X16: a principal that is a whole multiple of [10^9] loses nothing in
    the final division: the result is the multiple times the multiplier. *)
Theorem calculate_interest_whole_units (k s c D R : Z) :
  c > s ->
  calculate_interest (k * 10 ^ 9) s c D R
  = k * compute_multiplier (apy_to_rate_per_second R) ((c - s) * D).
Proof.
  intros Hcs. rewrite calculate_interest_elapsed, Z.max_r by lia.
  change (10 ^ 9) with BASE.
  rewrite <- Z.mul_assoc, (Z.mul_comm BASE), Z.mul_assoc.
  apply Z.div_mul. discriminate.
Qed.

Lemma calculate_interest_whole_units_witness :
  52560 > 0
  /\ calculate_interest (1000000000000 * 10 ^ 9) 0 52560 600 40
     = 1000000000000
       * compute_multiplier (apy_to_rate_per_second 40) ((52560 - 0) * 600).
Proof.
  split; [lia |].
  apply (calculate_interest_whole_units 1000000000000 0 52560 600 40). lia.
Defined.

(** X17: splitting a principal in two never gains and loses at most one
    unit: the parts' results add up to the result of the whole, or to one
    less. *)
Theorem calculate_interest_split (P1 P2 s c D R : Z) :
  calculate_interest P1 s c D R + calculate_interest P2 s c D R
  <= calculate_interest (P1 + P2) s c D R
  <= calculate_interest P1 s c D R + calculate_interest P2 s c D R + 1.
Proof.
  rewrite !calculate_interest_elapsed.
  set (m := compute_multiplier _ _).
  rewrite Z.mul_add_distr_r.
  generalize (P1 * m) (P2 * m). intros a b. unfold BASE.
  pose proof (Z.div_mod a 1000000000 ltac:(discriminate)).
  pose proof (Z.div_mod b 1000000000 ltac:(discriminate)).
  pose proof (Z.div_mod (a + b) 1000000000 ltac:(discriminate)).
  pose proof (Z.mod_pos_bound a 1000000000 ltac:(reflexivity)).
  pose proof (Z.mod_pos_bound b 1000000000 ltac:(reflexivity)).
  pose proof (Z.mod_pos_bound (a + b) 1000000000 ltac:(reflexivity)).
  lia.
Qed.

Module Compounding.

Import Rational RationalFacts Series.
Local Open Scope Q_scope.

Lemma Qdiv_le_compat (a a' b : Q) : 0 < b -> a <= a' -> a / b <= a' / b.
Proof.
  intros Hb Ha. unfold Qdiv. apply Qmult_le_compat_r; [assumption |].
  apply Qinv_le_0_compat. apply Qlt_le_weak. assumption.
Qed.

Lemma floor_div_le_exact (a a' b b' : Q) :
  0 < b -> b == b' -> a <= a' -> floor_div a b <= a' / b'.
Proof.
  intros Hb Eb Ha. rewrite <- Eb. unfold floor_div.
  apply Qle_trans with (a / b); [apply Qfloor_le |].
  apply Qdiv_le_compat; assumption.
Qed.

Lemma floor_div_nonneg (a b : Q) : 0 <= a -> 0 < b -> 0 <= floor_div a b.
Proof.
  intros Ha Hb. unfold floor_div.
  change 0 with (inject_Z 0). rewrite <- Zle_Qle.
  change 0%Z with (Qfloor 0). apply Qfloor_resp_le.
  unfold Qdiv. apply Qmult_le_0_compat; [assumption |].
  apply Qinv_le_0_compat. apply Qlt_le_weak. assumption.
Qed.

Lemma Qmult_le_compat_nonneg (a b c d : Q) :
  0 <= a -> a <= b -> 0 <= c -> c <= d -> a * c <= b * d.
Proof.
  intros Ha Hab Hc Hcd.
  apply Qle_trans with (b * c).
  - apply Qmult_le_compat_r; assumption.
  - rewrite (Qmult_comm b c), (Qmult_comm b d).
    apply Qmult_le_compat_r; [assumption |].
    apply Qle_trans with a; assumption.
Qed.

Lemma clamp_q_nonneg (N : Q) :
  0 <= (if negb (Qle_bool N 2) then N - 2 else 0).
Proof.
  destruct (Qle_bool N 2) eqn:E; cbn [negb]; [apply Qle_refl |].
  assert (H : ~ N <= 2).
  { intros H. apply Qle_bool_iff in H. congruence. }
  apply Qnot_le_lt in H. lra.
Qed.

Lemma offset_with_floor_le (R N : Q) :
  0 <= R -> 1 <= N ->
  offset_with floor_div R N <= offset_with Qdiv R N.
Proof.
  intros HR HN. unfold offset_with.
  pose proof (clamp_q_nonneg N) as Hc.
  set (c := if negb (Qle_bool N 2) then N - 2 else 0) in *.
  assert (HW : 0 < WADq) by reflexivity.
  assert (H2 : 0 < 2) by reflexivity.
  assert (H6 : 0 < 6) by reflexivity.
  assert (HT : 0 <= N * (N - 1)) by (apply Qmult_le_0_compat; lra).
  assert (HRR : 0 <= R * R) by (apply Qmult_le_0_compat; assumption).
  pose proof (floor_div_nonneg (R * R) WADq HRR HW) as Hb2.
  pose proof (floor_div_le_exact (R * R) (R * R) WADq WADq HW
                (Qeq_refl _) (Qle_refl _)) as Hb2le.
  set (b2 := floor_div (R * R) WADq) in *.
  set (e2 := R * R / WADq) in *.
  assert (Hb2R : 0 <= b2 * R) by (apply Qmult_le_0_compat; assumption).
  assert (Hb2Rle : b2 * R <= e2 * R)
    by (apply Qmult_le_compat_r; assumption).
  pose proof (floor_div_nonneg (b2 * R) WADq Hb2R HW) as Hb3.
  pose proof (floor_div_le_exact (b2 * R) (e2 * R) WADq WADq HW
                (Qeq_refl _) Hb2Rle) as Hb3le.
  set (b3 := floor_div (b2 * R) WADq) in *.
  set (e3 := e2 * R / WADq) in *.
  apply floor_div_le_exact; [reflexivity | reflexivity |].
  repeat apply Qplus_le_compat.
  - apply Qle_refl.
  - apply floor_div_le_exact; [assumption | reflexivity |].
    apply Qmult_le_compat_nonneg;
      [assumption | apply Qle_refl | assumption | assumption].
  - apply floor_div_le_exact; [assumption | reflexivity |].
    apply Qmult_le_compat_nonneg; [| apply Qle_refl | assumption | assumption].
    apply Qmult_le_0_compat; assumption.
Qed.

Lemma offset_exact_binomial3 (r dt : Z) :
  (1 <= dt)%Z -> offset_exact r dt == binomial3 r dt.
Proof.
  intros Hdt. destruct (Z_lt_le_dec 2 dt) as [Hgt | Hle].
  - apply offset_exact_above_clamp. assumption.
  - apply offset_exact_at_clamp. lia.
Qed.

(** Truncation only loses: the program's offset is at most the offset with
    exact divisions. *)
Lemma offset_of_le_exact (r dt : Z) :
  (0 <= r)%Z -> (1 <= dt)%Z -> inject_Z (offset_of r dt) <= binomial3 r dt.
Proof.
  intros Hr Hdt. rewrite <- offset_exact_binomial3 by assumption.
  rewrite <- offset_with_floor. unfold offset_exact.
  apply offset_with_floor_le.
  - change 0 with (inject_Z 0). rewrite <- Zle_Qle. assumption.
  - change 1 with (inject_Z 1). rewrite <- Zle_Qle. assumption.
Qed.

Lemma falling3_nonneg (k : Z) :
  (0 <= k)%Z -> 0 <= inject_Z k * (inject_Z k - 1) * (inject_Z k - 2).
Proof.
  intros Hk. change 1 with (inject_Z 1). change 2 with (inject_Z 2).
  rewrite <- !inject_Z_minus, <- !inject_Z_mult.
  change 0 with (inject_Z 0). rewrite <- Zle_Qle.
  destruct (Z.eq_dec k 0) as [-> | H0]; [discriminate |].
  destruct (Z.eq_dec k 1) as [-> | H1]; [discriminate |].
  apply Z.mul_nonneg_nonneg; [apply Z.mul_nonneg_nonneg |]; lia.
Qed.

(** The first four terms of the binomial expansion are below the whole
    power. *)
Lemma binomial_terms_le_power (y : Q) (n : nat) :
  0 <= y ->
  1 + inject_Z (Z.of_nat n) * y
  + inject_Z (Z.of_nat n) * (inject_Z (Z.of_nat n) - 1) / 2 * (y * y)
  + inject_Z (Z.of_nat n) * (inject_Z (Z.of_nat n) - 1)
    * (inject_Z (Z.of_nat n) - 2) / 6 * (y * y * y)
  <= (1 + y) ^ Z.of_nat n.
Proof.
  intros Hy. induction n as [| n IH].
  - cbn [Z.of_nat Qpower]. change (inject_Z 0) with 0.
    apply Qle_lteq. right. field.
  - rewrite Nat2Z.inj_succ. unfold Z.succ.
    rewrite Qpower_plus by lra. rewrite inject_Z_plus.
    change (inject_Z 1) with 1. change ((1 + y) ^ 1) with (1 + y).
    pose proof (falling3_nonneg (Z.of_nat n) (Nat2Z.is_nonneg n)) as HK.
    set (N := inject_Z (Z.of_nat n)) in *.
    set (T := 1 + N * y + N * (N - 1) / 2 * (y * y)
              + N * (N - 1) * (N - 2) / 6 * (y * y * y)) in *.
    apply Qle_trans with (T * (1 + y)).
    + assert (HK4 : 0 <= N * (N - 1) * (N - 2) * (y * y * (y * y) / 6)).
      { apply Qmult_le_0_compat; [assumption |].
        unfold Qdiv. apply Qmult_le_0_compat; [| discriminate].
        apply Qmult_le_0_compat; apply Qmult_le_0_compat; assumption. }
      assert (E : T * (1 + y)
                  == 1 + (N + 1) * y + (N + 1) * (N + 1 - 1) / 2 * (y * y)
                     + (N + 1) * (N + 1 - 1) * (N + 1 - 2) / 6 * (y * y * y)
                     + N * (N - 1) * (N - 2) * (y * y * (y * y) / 6))
        by (unfold T; field).
      rewrite E. lra.
    + apply Qmult_le_compat_r; [exact IH | lra].
Qed.

Lemma inject_Z_nonneg (k : Z) : (0 <= k)%Z -> 0 <= inject_Z k.
Proof. intros H. change 0 with (inject_Z 0). rewrite <- Zle_Qle. exact H. Qed.

(** X18: flooring only loses: for [r >= 0] and [dt >= 0] the multiplier is
    at most what the same computation gives with every division exact. *)
Theorem compute_multiplier_le_exact (r dt : Z) :
  (0 <= r)%Z -> (0 <= dt)%Z ->
  inject_Z (compute_multiplier r dt)
  <= compute_multiplier_with Qdiv (inject_Z r) (inject_Z dt).
Proof.
  intros Hr Hdt. rewrite <- floor_model_refines.
  unfold compute_multiplier_with.
  destruct (Qeq_bool (inject_Z dt) 0) eqn:E; cbn [negb]; [apply Qle_refl |].
  apply Qplus_le_compat; [apply Qle_refl |].
  apply offset_with_floor_le; [apply inject_Z_nonneg; assumption |].
  change 0 with (inject_Z 0) in E. rewrite Qeq_bool_inject in E.
  apply Z.eqb_neq in E.
  change 1 with (inject_Z 1). rewrite <- Zle_Qle. lia.
Qed.

Lemma compute_multiplier_le_exact_witness :
  (0 <= 1268391679)%Z /\ (0 <= 31536000)%Z
  /\ inject_Z (compute_multiplier 1268391679 31536000)
     <= compute_multiplier_with Qdiv (inject_Z 1268391679)
          (inject_Z 31536000).
Proof.
  split; [lia |]. split; [lia |].
  apply (compute_multiplier_le_exact 1268391679 31536000); lia.
Defined.

(** X19: for [r >= 0] and [dt >= 0] the multiplier never exceeds exact
    per-second compounding, [BASE * (1 + r / WAD)^dt]. *)
Theorem compute_multiplier_le_compounded (r dt : Z) :
  (0 <= r)%Z -> (0 <= dt)%Z ->
  inject_Z (compute_multiplier r dt) <= compounded r dt.
Proof.
  intros Hr Hdt. unfold compounded.
  assert (Hy : 0 <= inject_Z r / WADq).
  { unfold Qdiv. apply Qmult_le_0_compat; [| discriminate].
    apply inject_Z_nonneg. assumption. }
  pose proof (binomial_terms_le_power _ (Z.to_nat dt) Hy) as HB.
  rewrite Z2Nat.id in HB by assumption.
  destruct (Z.eq_dec dt 0) as [-> | Hnz].
  - rewrite compute_multiplier_zero_dt. cbn [Qpower].
    apply Qle_lteq. right. unfold BASEq. ring.
  - rewrite compute_multiplier_nonzero by assumption.
    rewrite inject_Z_plus. fold BASEq.
    apply Qle_trans with (BASEq + binomial3 r dt).
    + apply Qplus_le_compat; [apply Qle_refl |].
      apply offset_of_le_exact; lia.
    + apply Qle_trans with
        (BASEq * (1 + inject_Z dt * (inject_Z r / WADq)
                  + inject_Z dt * (inject_Z dt - 1) / 2
                    * (inject_Z r / WADq * (inject_Z r / WADq))
                  + inject_Z dt * (inject_Z dt - 1) * (inject_Z dt - 2) / 6
                    * (inject_Z r / WADq * (inject_Z r / WADq)
                       * (inject_Z r / WADq)))).
      * apply Qle_lteq. right. unfold binomial3. ring.
      * rewrite (Qmult_comm BASEq), (Qmult_comm BASEq).
        apply Qmult_le_compat_r; [exact HB | discriminate].
Qed.

Lemma compute_multiplier_le_compounded_witness :
  (0 <= 1000000000000000000)%Z /\ (0 <= 3)%Z
  /\ inject_Z (compute_multiplier 1000000000000000000 3)
     <= compounded 1000000000000000000 3.
Proof.
  split; [lia |]. split; [lia |].
  apply (compute_multiplier_le_compounded 1000000000000000000 3); lia.
Defined.

End Compounding.
